(** * ChatContainer: session lifecycle and message reconciliation

    A shallow embedding of [src/components/ChatContainer.tsx].  The React
    component is modelled as a record holding its hooks ([useState] cells and
    the socket ref) together with the part of the environment it talks to:
    the browser's local storage, the HTTP requests that are in flight, and a
    log of the effects performed so far, in program order.

    Every [async] function is cut at its [await]: the part before it is a
    function that records the request and leaves a continuation in
    [pending]; the part after it runs when the request settles.  Between two
    such points a handler runs to completion, as on the browser's event loop.

    What comes from outside is an argument: the id [uuidv4()] returns, the
    time stamp of [new Date()], the payload of a socket event, the way a
    request settles.  Local storage is taken to be available (its calls do
    not throw).

    The functions the view calls ([sendMessage], [clearChat],
    [retryConnection], [toggleSidebar]) read [sessionId] and [isSidebarOpen]
    as the render that created them saw them.  A step of the model is taken
    from a committed render, where these are the values of the state;
    [sendMessage_from] makes the captured id explicit, for a call that comes
    before the next render. *)

From Stdlib Require Import NArith Ascii String DecimalString.
From stdpp Require Import base option list strings gmap.

Open Scope N_scope.

(** ** JavaScript strings *)

(** A JavaScript string is a sequence of UTF-16 code units. *)
Abbreviation jsstring := (list N).

(** The code units of an ASCII literal of the source. *)
Definition js (s : string) : jsstring :=
  (λ a, N_of_ascii a) <$> list_ascii_of_string s.

(** Template interpolation [`${n}`] of a non-negative integer below 10^21;
    from there on JavaScript prints a number with an exponent, which is not
    modelled (an attempt counter does not get there). *)
Definition decimal (n : N) : jsstring :=
  js (NilEmpty.string_of_uint (N.to_uint n)).

(** ECMAScript [WhiteSpace] and [LineTerminator] code units: what
    [String.prototype.trim] strips. *)
Definition is_whitespace (u : N) : bool :=
  (u =? 9) || (u =? 10) || (u =? 11) || (u =? 12) || (u =? 13) || (u =? 32)
  || (u =? 160) || (u =? 5760) || ((8192 <=? u) && (u <=? 8202))
  || (u =? 8232) || (u =? 8233) || (u =? 8239) || (u =? 8287)
  || (u =? 12288) || (u =? 65279).

Fixpoint trimStart (s : jsstring) : jsstring :=
  match s with
  | u :: s' => if is_whitespace u then trimStart s' else s
  | [] => []
  end.

Definition trim (s : jsstring) : jsstring :=
  reverse (trimStart (reverse (trimStart s))).

(** Truthiness of a string: every string but the empty one. *)
Definition truthy (s : jsstring) : bool :=
  match s with [] => false | _ => true end.

(** Truthiness of what [getItem] returns: [null] is falsy too. *)
Definition truthy_item (v : option jsstring) : bool :=
  from_option truthy false v.

(** [v || fresh] on such a value. *)
Definition or_else (v : option jsstring) (fresh : jsstring) : jsstring :=
  match v with
  | Some s => if truthy s then s else fresh
  | None => fresh
  end.

(** ** Data *)

Inductive Role := user | assistant.

(** Modelled from the spec: the [Message] type of [types/chat], which is
    imported but not part of the sources.  The fields are the ones the
    component reads and writes; [isComplete] is optional, since
    [sendMessage] builds a [Message] without it. *)
Record Message := {
  role : Role;
  content : jsstring;
  timestamp : jsstring;
  isComplete : option bool
}.

(** [if (message.isComplete)]: only [true] passes. *)
Definition completed (m : Message) : bool :=
  match isComplete m with Some true => true | _ => false end.

Inductive StatusType := idle | typing | processing.

Record ChatStatus := {
  type : StatusType;
  message : option jsstring
}.

Record Session := {
  session_sessionId : jsstring;
  lastMessage : jsstring;
  session_timestamp : jsstring
}.

(** The socket held by [socketRef]: the session id of its query, and whether
    the component registered its event listeners on it.  Only the socket
    opened by the mount effect gets listeners. *)
Record Socket := {
  query_sessionId : jsstring;
  listeners : bool
}.

(** ** HTTP *)

Inductive Method := GET | DELETE.

(** The fields the component reads from a parsed response body; [None] is a
    field that is missing (or otherwise falsy). *)
Record Json := {
  data_messages : option (list Message);
  data_sessions : option (list Session)
}.

(** [json] is [None] when [response.json()] rejects, or yields a value whose
    fields cannot be read ([null]); both end in the caller's [catch]. *)
Record Response := {
  resp_status : N;
  json : option Json
}.

(** How a [fetch] settles. *)
Inductive NetResult :=
| NetworkError
| Aborted                     (* the 10 s timer fired *)
| Responded (r : Response).

Definition ok (r : Response) : bool :=
  (200 <=? resp_status r) && (resp_status r <=? 299).

(** [fetchWithTimeout]: the response, or [None] when it throws. *)
Definition fetchWithTimeout (n : NetResult) : option Response :=
  match n with
  | Responded r => if ok r then Some r else None
  | NetworkError | Aborted => None
  end.

(** ** Effects and continuations *)

Inductive Effect :=
| SetItem (key : string) (value : jsstring)
| RemoveItem (key : string)
| Io (sid : jsstring)                       (* io(SOCKET_URL, {query: {sessionId}}) *)
| Disconnect
| Connect
| Emit (event : string) (msg sid : jsstring)  (* emit(event, {message, sessionId}) *)
| Fetch (m : Method) (url : jsstring).

(** What resumes when a request settles. *)
Inductive Pending :=
| AwaitHistory (sid : jsstring) (fromSwitch : bool)
    (* [fetchChatHistory sid]; [fromSwitch] when [switchSession] awaits it *)
| AwaitSessions                             (* [fetchSessions] *)
| AwaitClear.                               (* [clearChat] *)

(** ** The component *)

Record Component := {
  messages : list Message;
  sessionId : jsstring;
  isLoading : bool;
  isHistoryLoading : bool;
  error : option jsstring;
  streamedMessage : option Message;
  status : ChatStatus;
  sessions : list Session;
  isSidebarOpen : bool;
  socketRef : option Socket;
  localStorage : gmap string jsstring;
  pending : list Pending;
  effects : list Effect
}.

Definition setMessages (f : list Message → list Message) (c : Component) :=
  {| messages := f (messages c); sessionId := sessionId c;
     isLoading := isLoading c; isHistoryLoading := isHistoryLoading c;
     error := error c; streamedMessage := streamedMessage c;
     status := status c; sessions := sessions c;
     isSidebarOpen := isSidebarOpen c; socketRef := socketRef c;
     localStorage := localStorage c; pending := pending c;
     effects := effects c |}.

Definition setSessionId (v : jsstring) (c : Component) :=
  {| messages := messages c; sessionId := v;
     isLoading := isLoading c; isHistoryLoading := isHistoryLoading c;
     error := error c; streamedMessage := streamedMessage c;
     status := status c; sessions := sessions c;
     isSidebarOpen := isSidebarOpen c; socketRef := socketRef c;
     localStorage := localStorage c; pending := pending c;
     effects := effects c |}.

Definition setIsLoading (v : bool) (c : Component) :=
  {| messages := messages c; sessionId := sessionId c;
     isLoading := v; isHistoryLoading := isHistoryLoading c;
     error := error c; streamedMessage := streamedMessage c;
     status := status c; sessions := sessions c;
     isSidebarOpen := isSidebarOpen c; socketRef := socketRef c;
     localStorage := localStorage c; pending := pending c;
     effects := effects c |}.

Definition setIsHistoryLoading (v : bool) (c : Component) :=
  {| messages := messages c; sessionId := sessionId c;
     isLoading := isLoading c; isHistoryLoading := v;
     error := error c; streamedMessage := streamedMessage c;
     status := status c; sessions := sessions c;
     isSidebarOpen := isSidebarOpen c; socketRef := socketRef c;
     localStorage := localStorage c; pending := pending c;
     effects := effects c |}.

Definition setError (v : option jsstring) (c : Component) :=
  {| messages := messages c; sessionId := sessionId c;
     isLoading := isLoading c; isHistoryLoading := isHistoryLoading c;
     error := v; streamedMessage := streamedMessage c;
     status := status c; sessions := sessions c;
     isSidebarOpen := isSidebarOpen c; socketRef := socketRef c;
     localStorage := localStorage c; pending := pending c;
     effects := effects c |}.

Definition setStreamedMessage (v : option Message) (c : Component) :=
  {| messages := messages c; sessionId := sessionId c;
     isLoading := isLoading c; isHistoryLoading := isHistoryLoading c;
     error := error c; streamedMessage := v;
     status := status c; sessions := sessions c;
     isSidebarOpen := isSidebarOpen c; socketRef := socketRef c;
     localStorage := localStorage c; pending := pending c;
     effects := effects c |}.

Definition setStatus (v : ChatStatus) (c : Component) :=
  {| messages := messages c; sessionId := sessionId c;
     isLoading := isLoading c; isHistoryLoading := isHistoryLoading c;
     error := error c; streamedMessage := streamedMessage c;
     status := v; sessions := sessions c;
     isSidebarOpen := isSidebarOpen c; socketRef := socketRef c;
     localStorage := localStorage c; pending := pending c;
     effects := effects c |}.

Definition setSessions (v : list Session) (c : Component) :=
  {| messages := messages c; sessionId := sessionId c;
     isLoading := isLoading c; isHistoryLoading := isHistoryLoading c;
     error := error c; streamedMessage := streamedMessage c;
     status := status c; sessions := v;
     isSidebarOpen := isSidebarOpen c; socketRef := socketRef c;
     localStorage := localStorage c; pending := pending c;
     effects := effects c |}.

Definition setIsSidebarOpen (v : bool) (c : Component) :=
  {| messages := messages c; sessionId := sessionId c;
     isLoading := isLoading c; isHistoryLoading := isHistoryLoading c;
     error := error c; streamedMessage := streamedMessage c;
     status := status c; sessions := sessions c;
     isSidebarOpen := v; socketRef := socketRef c;
     localStorage := localStorage c; pending := pending c;
     effects := effects c |}.

Definition setSocketRef (v : option Socket) (c : Component) :=
  {| messages := messages c; sessionId := sessionId c;
     isLoading := isLoading c; isHistoryLoading := isHistoryLoading c;
     error := error c; streamedMessage := streamedMessage c;
     status := status c; sessions := sessions c;
     isSidebarOpen := isSidebarOpen c; socketRef := v;
     localStorage := localStorage c; pending := pending c;
     effects := effects c |}.

Definition setLocalStorage (v : gmap string jsstring) (c : Component) :=
  {| messages := messages c; sessionId := sessionId c;
     isLoading := isLoading c; isHistoryLoading := isHistoryLoading c;
     error := error c; streamedMessage := streamedMessage c;
     status := status c; sessions := sessions c;
     isSidebarOpen := isSidebarOpen c; socketRef := socketRef c;
     localStorage := v; pending := pending c;
     effects := effects c |}.

Definition setPending (v : list Pending) (c : Component) :=
  {| messages := messages c; sessionId := sessionId c;
     isLoading := isLoading c; isHistoryLoading := isHistoryLoading c;
     error := error c; streamedMessage := streamedMessage c;
     status := status c; sessions := sessions c;
     isSidebarOpen := isSidebarOpen c; socketRef := socketRef c;
     localStorage := localStorage c; pending := v;
     effects := effects c |}.

Definition perform (e : Effect) (c : Component) :=
  {| messages := messages c; sessionId := sessionId c;
     isLoading := isLoading c; isHistoryLoading := isHistoryLoading c;
     error := error c; streamedMessage := streamedMessage c;
     status := status c; sessions := sessions c;
     isSidebarOpen := isSidebarOpen c; socketRef := socketRef c;
     localStorage := localStorage c; pending := pending c;
     effects := effects c ++ [e] |}.

(** Statements in program order: [c |> f |> g] runs [f], then [g]. *)
Notation "c |> f" := (f c) (at level 45, left associativity, only parsing).

(** The [useState] initial values, before the mount effect has run, in a
    browser whose local storage is [ls]. *)
Definition initial (ls : gmap string jsstring) : Component :=
  {| messages := []; sessionId := []; isLoading := false;
     isHistoryLoading := true; error := None; streamedMessage := None;
     status := {| type := idle; message := None |}; sessions := [];
     isSidebarOpen := false; socketRef := None; localStorage := ls;
     pending := []; effects := [] |}.

(** ** Local storage *)

Definition getItem (key : string) (c : Component) : option jsstring :=
  localStorage c !! key.

Definition setItem (key : string) (value : jsstring) (c : Component) :=
  c |> setLocalStorage (<[key := value]> (localStorage c))
    |> perform (SetItem key value).

Definition removeItem (key : string) (c : Component) :=
  c |> setLocalStorage (delete key (localStorage c))
    |> perform (RemoveItem key).

(** Suspend at an [await fetchWithTimeout(url, {method})]. *)
Definition await (m : Method) (url : jsstring) (k : Pending) (c : Component) :=
  c |> perform (Fetch m url) |> setPending (pending c ++ [k]).

(** ** The component's functions *)

Section ChatContainer.

(** [config.API_BASE_URL]; the configuration module is not part of the
    sources, so the base URL stays a parameter. *)
Variable API_BASE_URL : jsstring.

Definition chatUrl (sid : jsstring) : jsstring :=
  API_BASE_URL ++ js "/chat/" ++ sid.

Definition sessionUrl : jsstring := API_BASE_URL ++ js "/session".

(** *** fetchSessions *)

Definition fetchSessions (c : Component) : Component :=
  c |> setIsHistoryLoading true
    |> await GET sessionUrl AwaitSessions.

Definition fetchSessions_resume (n : NetResult) (c : Component) : Component :=
  (match fetchWithTimeout n ≫= json with
   | Some data => c |> setSessions (default [] (data_sessions data))
   | None =>
       c |> setSessions []
         |> setError (Some (js "No chat sessions available."))
   end)
  |> setIsHistoryLoading false.

(** *** fetchChatHistory *)

Definition fetchChatHistory (sid : jsstring) (fromSwitch : bool)
    (c : Component) : Component :=
  c |> setIsHistoryLoading true
    |> setError None
    |> await GET (chatUrl sid) (AwaitHistory sid fromSwitch).

Definition fetchChatHistory_resume (n : NetResult) (c : Component)
    : Component :=
  (match fetchWithTimeout n ≫= json with
   | Some data => c |> setMessages (λ _, default [] (data_messages data))
   | None =>
       c |> setError
              (Some (js "Unable to load chat history. Please try again later."))
   end)
  |> setIsHistoryLoading false.

(** *** Socket listeners *)

Inductive SocketEvent :=
| connect
| connect_error
| connect_timeout
| reconnect_attempt (attemptNumber : N)
| reconnect_failed
| session (data_sessionId : jsstring)
| message_final (m : Message)          (* 'message' *)
| message_stream (m : Message)         (* 'message-stream' *)
| status_event (newStatus : ChatStatus)  (* 'status' *)
| error_event.                         (* 'error' *)

Definition on_connect (c : Component) : Component := c |> setError None.

Definition on_connect_error (c : Component) : Component :=
  c |> setError (Some (js "Unable to connect to chat server. The server might be temporarily unavailable. Please try again later.")).

Definition on_connect_timeout (c : Component) : Component :=
  c |> setError (Some (js "Connection timed out. Please check your internet connection and try again.")).

Definition on_reconnect_attempt (attemptNumber : N) (c : Component)
    : Component :=
  c |> setError (Some (js "Attempting to reconnect to server... (Attempt "
                       ++ decimal attemptNumber ++ js ")")).

Definition on_reconnect_failed (c : Component) : Component :=
  c |> setError (Some (js "Unable to reconnect to the server. Please refresh the page or try again later.")).

Definition on_session (data_sessionId : jsstring) (c : Component)
    : Component :=
  c |> setSessionId data_sessionId
    |> setItem "chatSessionId" data_sessionId.

Definition on_message (m : Message) (c : Component) : Component :=
  if completed m then
    c |> setStreamedMessage None
      |> setMessages (λ prevMessages, prevMessages ++ [m])
      |> setIsLoading false
      |> fetchSessions
  else c.

Definition on_message_stream (m : Message) (c : Component) : Component :=
  c |> setStreamedMessage (Some m).

Definition on_status (newStatus : ChatStatus) (c : Component) : Component :=
  c |> setStatus newStatus.

Definition on_error (c : Component) : Component :=
  c |> setError (Some (js "An error occurred with the chat connection. Please try again later."))
    |> setIsLoading false
    |> setStatus {| type := idle; message := None |}.

Definition handler (ev : SocketEvent) : Component → Component :=
  match ev with
  | connect => on_connect
  | connect_error => on_connect_error
  | connect_timeout => on_connect_timeout
  | reconnect_attempt n => on_reconnect_attempt n
  | reconnect_failed => on_reconnect_failed
  | session sid => on_session sid
  | message_final m => on_message m
  | message_stream m => on_message_stream m
  | status_event s => on_status s
  | error_event => on_error
  end.

(** An event reaches its listener only on a socket that has listeners. *)
Definition listening (c : Component) : bool :=
  match socketRef c with Some s => listeners s | None => false end.

Definition dispatch (ev : SocketEvent) (c : Component) : Component :=
  if listening c then handler ev c else c.

(** *** The mount effect *)

(** [uuid] is what [uuidv4()] returns if it is called. *)
Definition mount (uuid : jsstring) (c : Component) : Component :=
  let storedSessionId := getItem "chatSessionId" c in
  let currentSessionId := or_else storedSessionId uuid in
  (if negb (truthy_item storedSessionId)
   then c |> setItem "chatSessionId" currentSessionId
   else c)
  |> setSessionId currentSessionId
  |> setSocketRef
       (Some {| query_sessionId := currentSessionId; listeners := true |})
  |> perform (Io currentSessionId)
  |> fetchChatHistory currentSessionId false
  |> fetchSessions.

(** *** sendMessage *)

(** [now] is [new Date().toISOString()].  The call comes from a committed
    render: the [sessionId] it closed over is the one of the state. *)
Definition sendMessage (content now : jsstring) (c : Component) : Component :=
  if negb (truthy (trim content)) || negb (bool_decide (is_Some (socketRef c)))
  then c
  else
    let userMessage := {| role := user; content := content;
                          timestamp := now; isComplete := None |} in
    c |> setMessages (λ prevMessages, prevMessages ++ [userMessage])
      |> setIsLoading true
      |> setError None
      |> perform (Emit "message" content (sessionId c)).

(** [sendMessage] as created by a render that saw [sessionId] as its
    session id: the state may have moved on since (a 'session' event sets
    the state, and the view keeps the old function until React has rendered
    again).  From a committed render, it is [sendMessage]. *)
Definition sendMessage_from (sessionId : jsstring) (content now : jsstring)
    (c : Component) : Component :=
  if negb (truthy (trim content)) || negb (bool_decide (is_Some (socketRef c)))
  then c
  else
    let userMessage := {| role := user; content := content;
                          timestamp := now; isComplete := None |} in
    c |> setMessages (λ prevMessages, prevMessages ++ [userMessage])
      |> setIsLoading true
      |> setError None
      |> perform (Emit "message" content sessionId).

(** *** clearChat *)

(** Called from a committed render, as [sendMessage]. *)
Definition clearChat (c : Component) : Component :=
  c |> await DELETE (chatUrl (sessionId c)) AwaitClear.

Definition clearChat_resume (n : NetResult) (c : Component) : Component :=
  let failed :=
    c |> setError (Some (js "Failed to clear chat history. Please try again."))
  in
  match fetchWithTimeout n with
  | Some response =>
      if negb (ok response) then failed
      else
        c |> setMessages (λ _, [])
          |> setStreamedMessage None
          |> setError None
          |> fetchSessions
  | None => failed
  end.

(** *** createNewSession, switchSession, retryConnection *)

(** [if (socketRef.current) { disconnect(); socketRef.current = io(...) }];
    the new socket gets no listeners. *)
Definition reopen (sid : jsstring) (c : Component) : Component :=
  match socketRef c with
  | Some _ =>
      c |> perform Disconnect
        |> setSocketRef (Some {| query_sessionId := sid; listeners := false |})
        |> perform (Io sid)
  | None => c
  end.

Definition createNewSession (uuid : jsstring) (c : Component) : Component :=
  let newSessionId := uuid in
  c |> removeItem "chatSessionId"
    |> setItem "chatSessionId" newSessionId
    |> setSessionId newSessionId
    |> reopen newSessionId
    |> setMessages (λ _, [])
    |> setStreamedMessage None
    |> setError None
    |> fetchSessions.

Definition switchSession (newSessionId : jsstring) (c : Component)
    : Component :=
  c |> setItem "chatSessionId" newSessionId
    |> setSessionId newSessionId
    |> reopen newSessionId
    |> fetchChatHistory newSessionId true.

(** Called from a committed render, as [sendMessage]. *)
Definition retryConnection (c : Component) : Component :=
  match socketRef c with
  | Some _ => c |> perform Connect |> fetchChatHistory (sessionId c) false
  | None => c
  end.

Definition toggleSidebar (c : Component) : Component :=
  c |> setIsSidebarOpen (negb (isSidebarOpen c)).

(** *** Settling a request *)

Definition resume (k : Pending) (n : NetResult) (c : Component) : Component :=
  match k with
  | AwaitHistory _ fromSwitch =>
      let c' := fetchChatHistory_resume n c in
      if fromSwitch then c' |> setIsSidebarOpen false else c'
  | AwaitSessions => fetchSessions_resume n c
  | AwaitClear => clearChat_resume n c
  end.

(** The [i]-th request in flight settles with [n]. *)
Definition settle (i : nat) (n : NetResult) (c : Component) : Component :=
  match pending c !! i with
  | Some k => c |> setPending (delete i (pending c)) |> resume k n
  | None => c
  end.

(** ** Executions *)

(** Everything that can happen to a mounted component: a socket event, a call
    from the view, or a request that settles. *)
Inductive Action :=
| Incoming (ev : SocketEvent)
| SendMessage (content now : jsstring)
| ClearChat
| CreateNewSession (uuid : jsstring)
| SwitchSession (newSessionId : jsstring)
| RetryConnection
| ToggleSidebar
| Settle (i : nat) (n : NetResult).

Definition step (a : Action) : Component → Component :=
  match a with
  | Incoming ev => dispatch ev
  | SendMessage content now => sendMessage content now
  | ClearChat => clearChat
  | CreateNewSession uuid => createNewSession uuid
  | SwitchSession newSessionId => switchSession newSessionId
  | RetryConnection => retryConnection
  | ToggleSidebar => toggleSidebar
  | Settle i n => settle i n
  end.

Definition run (acts : list Action) (c : Component) : Component :=
  foldl (λ c a, step a c) c acts.

(** The states a mounted component can be in. *)
Inductive reachable : Component → Prop :=
| reachable_mount ls uuid : reachable (mount uuid (initial ls))
| reachable_step a c : reachable c → reachable (step a c).

(** *** The cleanup of the mount effect *)

(** Runs when the component unmounts; [socketRef.current] is read then. *)
Definition unmount (c : Component) : Component :=
  match socketRef c with
  | Some _ => c |> perform Disconnect
  | None => c
  end.

End ChatContainer.

(** * Vocabulary of the properties *)

(** Only white space, or nothing at all. *)
Definition blank (s : jsstring) : bool := forallb is_whitespace s.

(** What the component itself puts into the transcript: a message that came
    with its completion flag set, or the user's own message, which carries no
    flag. *)
Definition vetted (m : Message) : bool :=
  match isComplete m, role m with
  | Some true, _ => true
  | None, user => true
  | _, _ => false
  end.

(** A fetched transcript is taken as the backend sends it; this is the
    assumption that the backend only sends vetted messages. *)
Definition history_vetted (a : Action) : bool :=
  match a with
  | Settle _ (Responded r) =>
      forallb vetted (default [] (json r ≫= data_messages))
  | _ => true
  end.

(** The steps that may replace the transcript: a new session, and a
    transcript fetch or a clear that settles. *)
Definition resets (a : Action) (c : Component) : bool :=
  match a with
  | CreateNewSession _ => true
  | Settle i _ =>
      match pending c !! i with
      | Some (AwaitHistory _ _) | Some AwaitClear => true
      | Some AwaitSessions | None => false
      end
  | _ => false
  end.

(** The steps that leave the active session id alone. *)
Definition keeps_session (a : Action) : bool :=
  match a with
  | Incoming (session _) | CreateNewSession _ | SwitchSession _ => false
  | _ => true
  end.

(** The steps that put a new socket into [socketRef]. *)
Definition reopens (a : Action) : bool :=
  match a with
  | CreateNewSession _ | SwitchSession _ => true
  | _ => false
  end.

(** The socket events whose listeners write the activity status. *)
Definition touches_status (a : Action) : bool :=
  match a with
  | Incoming (status_event _) | Incoming error_event => true
  | _ => false
  end.

(** The events of the transport itself. *)
Definition transport (ev : SocketEvent) : bool :=
  match ev with
  | connect | connect_error | connect_timeout | reconnect_attempt _
  | reconnect_failed => true
  | _ => false
  end.

Definition is_settle (a : Action) : bool :=
  match a with Settle _ _ => true | _ => false end.

(** The requests whose start raises [isHistoryLoading]. *)
Definition fetching (k : Pending) : bool :=
  match k with
  | AwaitHistory _ _ | AwaitSessions => true
  | AwaitClear => false
  end.

(** Counting in the effect log. *)
Fixpoint count (p : Effect → bool) (effs : list Effect) : nat :=
  match effs with
  | e :: effs' => (if p e then 1 else 0) + count p effs'
  | [] => 0
  end%nat.

Definition is_io (e : Effect) : bool :=
  match e with Io _ => true | _ => false end.

Definition is_disconnect (e : Effect) : bool :=
  match e with Disconnect => true | _ => false end.

(** Reading the log with one slot for a socket: [None] if an [io()] comes
    while a socket is open, otherwise [Some b], with [b] telling whether a
    socket is open at the end. *)
Fixpoint one_socket (open : bool) (effs : list Effect) : option bool :=
  match effs with
  | [] => Some open
  | Io _ :: effs' => if open then None else one_socket true effs'
  | Disconnect :: effs' => one_socket false effs'
  | _ :: effs' => one_socket open effs'
  end.

(** An emission is a 'message' with text that is not blank; other effects
    pass. *)
Definition emit_ok (e : Effect) : bool :=
  match e with
  | Emit event msg _ => String.eqb event "message" && negb (blank msg)
  | _ => true
  end.

(** ** Sample values *)

(** The values used below: a base URL, two session ids, an id for [uuidv4]
    to return, messages of two sessions, and ways for a request to settle. *)
Definition example_api : jsstring := js "/api".
Definition example_A : jsstring := js "A".
Definition example_B : jsstring := js "B".
Definition example_uuid : jsstring := js "3f2b8c1e-uuid".
Definition example_mA : Message :=
  {| role := assistant; content := js "kept in session A";
     timestamp := js "2024-01-01T00:00:00.000Z"; isComplete := Some true |}.
Definition example_mB : Message :=
  {| role := assistant; content := js "kept in session B";
     timestamp := js "2024-01-02T00:00:00.000Z"; isComplete := Some true |}.
Definition example_history (ms : list Message) : NetResult :=
  Responded {| resp_status := 200;
               json := Some {| data_messages := Some ms;
                               data_sessions := None |} |}.
Definition example_status (code : N) : NetResult :=
  Responded {| resp_status := code; json := None |}.

(** A browser that has session [A] stored, just after mounting. *)
Definition example_mounted : Component :=
  mount example_api example_uuid (initial {[ "chatSessionId" := example_A ]}).

(** A short conversation: the user asks, the answer
    streams in and is finalised, and the first transcript request settles
    last. *)
Definition example_conversation : list Action :=
  [SendMessage (js "hello") (js "2024-01-01T00:00:05.000Z");
   Incoming (message_stream
               {| role := assistant; content := js "kept in";
                  timestamp := js "2024-01-01T00:00:06.000Z";
                  isComplete := Some false |});
   Incoming (message_final example_mA);
   Settle 0 (example_history [example_mA])].

Definition example_C : jsstring := js "C".

(** The user has sent a message and waits for the answer. *)
Definition example_asked : Component :=
  run example_api
    [SendMessage (js "hello") (js "2024-01-01T00:00:05.000Z")]
    example_mounted.

(** The backend reports that it is typing, then the user asks. *)
Definition example_typing : Component :=
  run example_api
    [Incoming (status_event {| type := typing; message := None |});
     SendMessage (js "hello") (js "2024-01-01T00:00:05.000Z")]
    example_mounted.

(** The user sends a message and, before the answer, switches to [B]. *)
Definition example_switched : Component :=
  run example_api
    [SendMessage (js "hello") (js "2024-01-01T00:00:05.000Z");
     SwitchSession example_B]
    example_mounted.

(** A session list as the backend sends it. *)
Definition example_sessions : NetResult :=
  Responded {| resp_status := 200;
               json := Some {| data_messages := None;
                               data_sessions :=
                                 Some [{| session_sessionId := example_A;
                                          lastMessage := js "kept in session A";
                                          session_timestamp :=
                                            js "2024-01-01T00:00:00.000Z" |}] |} |}.

(** * Properties *)

(** Unfold the component's functions down to record projections. *)
Ltac unfold_component :=
  unfold step, settle, resume, dispatch, handler, mount, sendMessage,
    clearChat, clearChat_resume, createNewSession, switchSession,
    retryConnection, toggleSidebar, reopen, on_connect, on_connect_error,
    on_connect_timeout, on_reconnect_attempt, on_reconnect_failed,
    on_session, on_message, on_message_stream, on_status, on_error,
    fetchChatHistory, fetchChatHistory_resume, fetchSessions,
    fetchSessions_resume, await, setItem, removeItem, getItem, listening in *.

Ltac split_all := repeat match goal with |- _ ∧ _ => split end.

(** ** Blank input *)

Lemma trimStart_nil (s : jsstring) : trimStart s = [] ↔ blank s = true.
Proof.
  induction s as [|u s IH]; simpl; [tauto|].
  destruct (is_whitespace u); simpl; [exact IH|].
  split; discriminate.
Qed.

Lemma trimStart_blank (s : jsstring) :
  blank (trimStart s) = true → trimStart s = [].
Proof.
  induction s as [|u s IH]; simpl; [reflexivity|].
  destruct (is_whitespace u) eqn:Hu; [exact IH|].
  simpl. rewrite Hu. discriminate.
Qed.

Lemma blank_reverse (s : jsstring) : blank (reverse s) = blank s.
Proof.
  unfold blank. induction s as [|u s IH]; [reflexivity|].
  rewrite reverse_cons, forallb_app, IH. simpl.
  destruct (is_whitespace u), (forallb is_whitespace s); reflexivity.
Qed.

Lemma truthy_trim (s : jsstring) : truthy (trim s) = negb (blank s).
Proof.
  unfold trim. destruct (blank s) eqn:Hs; simpl.
  - apply trimStart_nil in Hs. rewrite Hs. reflexivity.
  - destruct (reverse (trimStart (reverse (trimStart s)))) eqn:Hr;
      [|reflexivity].
    exfalso. apply (f_equal reverse) in Hr.
    rewrite reverse_involutive, reverse_nil in Hr.
    apply trimStart_nil in Hr. rewrite blank_reverse in Hr.
    apply trimStart_blank, trimStart_nil in Hr. congruence.
Qed.

Section Properties.

Variable API : jsstring.

(** ** The socket ref of a mounted component *)

Lemma socketRef_step (a : Action) (c : Component) :
  is_Some (socketRef c) → is_Some (socketRef (step API a c)).
Proof.
  intros [s Hs]. destruct a as [ev| | | | | | |]; [destruct ev|..];
    unfold_component; rewrite ?Hs; simpl;
    repeat case_match; simpl; rewrite ?Hs; eauto; congruence.
Qed.

Lemma socketRef_reachable (c : Component) :
  reachable API c → is_Some (socketRef c).
Proof.
  induction 1 as [ls uuid|a c _ IH]; [|by apply socketRef_step].
  unfold_component. simpl. eauto.
Qed.

(** ** Message reconciliation *)

(** The body of the 'message' listener: a message whose completion flag is
    [true] clears the in-progress placeholder, goes to the end of the
    transcript and starts a refresh of the session list (a GET of the session
    endpoint, now in flight); a message whose flag is [false] or missing
    changes nothing at all. *)
Lemma on_message_final (m : Message) (c : Component) :
  let c' := on_message API m c in
  match isComplete m with
  | Some true =>
      streamedMessage c' = None ∧
      messages c' = messages c ++ [m] ∧
      isLoading c' = false ∧
      effects c' = effects c ++ [Fetch GET (sessionUrl API)] ∧
      pending c' = pending c ++ [AwaitSessions]
  | Some false | None => c' = c
  end.
Proof.
  unfold on_message, completed.
  destruct (isComplete m) as [[|]|]; simpl; auto.
Qed.

(** The body of the 'message-stream' listener, run over a list of deltas:
    each one replaces the placeholder, so afterwards the placeholder is the
    last delta (or what it was, for an empty list) and the transcript is the
    one before. *)
Lemma message_stream_latest (ds : list Message) (c : Component) :
  let c' := foldl (λ c d, on_message_stream d c) c ds in
  streamedMessage c' = from_option Some (streamedMessage c) (last ds) ∧
  messages c' = messages c.
Proof.
  induction ds as [|d ds IH] using rev_ind; simpl; [done|].
  rewrite foldl_snoc, last_snoc. simpl. split; [done|apply IH].
Qed.

(** The body of the 'error' listener sets the error message and, besides,
    puts the activity status back to idle and clears the loading flag. *)
Lemma on_error_resets (c : Component) :
  let c' := on_error c in
  error c' = Some (js "An error occurred with the chat connection. Please try again later.") ∧
  status c' = {| type := idle; message := None |} ∧
  isLoading c' = false ∧
  messages c' = messages c ∧
  streamedMessage c' = streamedMessage c.
Proof. done. Qed.

(** ** Socket events as they arrive *)

(** X17. A 'message' event on the socket in use.  If that socket has the
    listeners and the completion flag of the message is [true], the
    placeholder is cleared, the message goes to the end of the transcript,
    the loading flag is lowered and a refresh of the session list starts.
    If the flag is [false] or missing, or the socket has no listeners, the
    component does not change. *)
Theorem message_final_event (m : Message) (c : Component) :
  let c' := step API (Incoming (message_final m)) c in
  if listening c then
    match isComplete m with
    | Some true =>
        streamedMessage c' = None ∧
        messages c' = messages c ++ [m] ∧
        isLoading c' = false ∧
        effects c' = effects c ++ [Fetch GET (sessionUrl API)] ∧
        pending c' = pending c ++ [AwaitSessions]
    | Some false | None => c' = c
    end
  else c' = c.
Proof.
  simpl. unfold dispatch. destruct (listening c); [|done].
  apply on_message_final.
Qed.

Lemma deltas_heard (ds : list Message) (c : Component) :
  listening c = true →
  run API ((λ d, Incoming (message_stream d)) <$> ds) c
  = foldl (λ c d, on_message_stream d c) c ds.
Proof.
  revert c. induction ds as [|d ds IH]; intros c Hl; [done|].
  cbn [fmap list_fmap run foldl step]. unfold dispatch at 1. rewrite Hl.
  apply (IH (handler API (message_stream d) c)). exact Hl.
Qed.

Lemma events_unheard (evs : list SocketEvent) (c : Component) :
  listening c = false → run API (Incoming <$> evs) c = c.
Proof.
  intros Hl. induction evs as [|ev evs IH]; [done|].
  cbn [fmap list_fmap run foldl step]. unfold dispatch at 1. rewrite Hl.
  exact IH.
Qed.

(** X18. A run of 'message-stream' events on the socket in use.  The
    transcript is untouched.  If the socket has the listeners, each delta
    replaces the placeholder, so that it ends as the last delta of the run;
    if it has none, the placeholder stays what it was. *)
Theorem message_stream_events (ds : list Message) (c : Component) :
  let c' := run API ((λ d, Incoming (message_stream d)) <$> ds) c in
  messages c' = messages c ∧
  streamedMessage c'
  = if listening c
    then from_option Some (streamedMessage c) (last ds)
    else streamedMessage c.
Proof.
  destruct (listening c) eqn:Hl.
  - rewrite deltas_heard by done.
    destruct (message_stream_latest ds c) as [H1 H2]. done.
  - assert (run API ((λ d, Incoming (message_stream d)) <$> ds) c = c) as ->;
      [|done].
    change (run API ((Incoming ∘ message_stream) <$> ds) c = c).
    rewrite list_fmap_compose. by apply events_unheard.
Qed.

(** X19. An 'error' event on the socket in use.  If that socket has the
    listeners, the error message is set, the activity status goes back to
    idle and the loading flag is lowered, with transcript and placeholder
    untouched; if it has none, the component does not change. *)
Theorem error_event_resets (c : Component) :
  let c' := step API (Incoming error_event) c in
  if listening c then
    error c' = Some (js "An error occurred with the chat connection. Please try again later.") ∧
    status c' = {| type := idle; message := None |} ∧
    isLoading c' = false ∧
    messages c' = messages c ∧
    streamedMessage c' = streamedMessage c
  else c' = c.
Proof.
  simpl. unfold dispatch. destruct (listening c); [|done].
  apply on_error_resets.
Qed.

(** ** clearChat *)


(** ** Initialisation *)

(** C9, as the code has it.  The stored id is used as it is when there is one
    and it is not the empty string; otherwise the id [uuidv4()] returns is
    used, and it is stored first.  Either way the socket is opened with that
    id in its query, and the transcript of that id and the session list are
    requested, in this order. *)
Theorem mount_resolves (uuid : jsstring) (ls : gmap string jsstring) :
  let c := mount API uuid (initial ls) in
  let resumed :=
    match ls !! "chatSessionId" with
    | Some (_ :: _) => true
    | Some [] | None => false
    end in
  let id :=
    match ls !! "chatSessionId" with
    | Some (u :: stored) => u :: stored
    | Some [] | None => uuid
    end in
  sessionId c = id ∧
  localStorage c = (if resumed then ls else <["chatSessionId" := uuid]> ls) ∧
  socketRef c = Some {| query_sessionId := id; listeners := true |} ∧
  effects c = (if resumed then [] else [SetItem "chatSessionId" uuid])
              ++ [Io id; Fetch GET (chatUrl API id);
                  Fetch GET (sessionUrl API)] ∧
  pending c = [AwaitHistory id false; AwaitSessions].
Proof.
  unfold mount, getItem. simpl.
  destruct (ls !! "chatSessionId") as [[|u s]|]; simpl; done.
Qed.

(** ** Transcript invariants *)

Lemma messages_fetchChatHistory_resume (n : NetResult) (c : Component) :
  messages (fetchChatHistory_resume n c)
  = match fetchWithTimeout n ≫= json with
    | Some data => default [] (data_messages data)
    | None => messages c
    end.
Proof. unfold fetchChatHistory_resume. by case_match. Qed.

Lemma messages_clearChat_resume (n : NetResult) (c : Component) :
  messages (clearChat_resume API n c)
  = match fetchWithTimeout n with Some _ => [] | None => messages c end.
Proof.
  unfold clearChat_resume, fetchWithTimeout.
  destruct n as [| |r]; simpl; [done..|].
  destruct (ok r) eqn:E; simpl; rewrite ?E; done.
Qed.

(** What one step can do to the transcript: nothing, append one vetted
    message, or (a reset) empty it or replace it by a fetched one. *)
Lemma messages_step (a : Action) (c : Component) :
  messages (step API a c) = messages c ∨
  (∃ m, vetted m = true ∧ messages (step API a c) = messages c ++ [m]) ∨
  (resets a c = true ∧
   (messages (step API a c) = [] ∨
    ∃ i r, a = Settle i (Responded r) ∧
      messages (step API a c) = default [] (json r ≫= data_messages))).
Proof.
  destruct a as [ev|content now| | | | | |i n]; simpl.
  - unfold dispatch. destruct (listening c); [|by left].
    destruct ev; simpl; try by left.
    unfold on_message, completed, vetted.
    destruct (isComplete m) as [[|]|] eqn:E; try by left.
    right; left. exists m. unfold vetted. rewrite E. done.
  - unfold sendMessage. case_match; [by left|].
    right; left. eexists; split; [|reflexivity]. done.
  - by left.
  - right; right. unfold createNewSession, reopen. simpl.
    split; [done|]. by left.
  - left. unfold switchSession, reopen. simpl. by case_match.
  - left. unfold retryConnection. by case_match.
  - by left.
  - unfold settle. destruct (pending c !! i) as [[sid b| |]|] eqn:E; simpl.
    + assert (messages (if b then setIsSidebarOpen false
                 (fetchChatHistory_resume n (setPending (delete i (pending c)) c))
               else fetchChatHistory_resume n (setPending (delete i (pending c)) c))
              = messages (fetchChatHistory_resume n
                            (setPending (delete i (pending c)) c))) as ->
        by (by destruct b).
      rewrite messages_fetchChatHistory_resume.
      destruct n as [| |r]; simpl; try by left.
      destruct (ok r); simpl; [|by left].
      destruct (json r) as [data|] eqn:Hj; simpl; [|by left].
      right; right. split; [done|]. right. exists i, r.
      rewrite Hj. done.
    + left. by case_match.
    + rewrite messages_clearChat_resume. simpl.
      destruct (fetchWithTimeout n); [|by left].
      right; right. split; [done|]. by left.
    + by left.
Qed.

Lemma vetted_step (a : Action) (c : Component) :
  history_vetted a = true →
  forallb vetted (messages c) = true →
  forallb vetted (messages (step API a c)) = true.
Proof.
  intros Ha Hc.
  destruct (messages_step a c) as [->|[(m & Hm & ->)|[_ [->|(i & r & -> & ->)]]]];
    [done| |done|exact Ha].
  rewrite forallb_app, Hc. simpl. by rewrite Hm.
Qed.

Lemma vetted_run (acts : list Action) (c : Component) :
  forallb history_vetted acts = true →
  forallb vetted (messages c) = true →
  forallb vetted (messages (run API acts c)) = true.
Proof.
  revert c. induction acts as [|a acts IH]; intros c; simpl; [done|].
  intros [Ha Hacts]%andb_prop Hc. apply IH; [done|]. by apply vetted_step.
Qed.

(** C4, as the code has it.  In every state a mounted component reaches,
    provided the transcripts it fetched held only vetted messages: the
    transcript holds only messages whose completion flag is [true] and the
    user's own messages, which carry no flag; there is at most one
    in-progress message; and a step that is not a reset keeps the transcript
    as a prefix of the new one. *)
Theorem transcript_invariant (ls : gmap string jsstring) (uuid : jsstring)
    (acts : list Action) :
  forallb history_vetted acts = true →
  let c := run API acts (mount API uuid (initial ls)) in
  forallb vetted (messages c) = true ∧
  (length (option_list (streamedMessage c)) ≤ 1)%nat ∧
  ∀ a, resets a c = false → messages c `prefix_of` messages (step API a c).
Proof.
  intros Hacts c. split_all.
  - apply vetted_run; [done|]. unfold mount. simpl. by case_match.
  - destruct (streamedMessage c); simpl; lia.
  - intros a Ha.
    destruct (messages_step a c) as [->|[(m & _ & ->)|[Hr _]]];
      [done|by apply prefix_app_r|congruence].
Qed.

(** ** sendMessage *)

Lemma sendMessage_sent (content now : jsstring) (c : Component) :
  reachable API c → blank content = false →
  let c' := sendMessage content now c in
  messages c' = messages c ++ [{| role := user; content := content;
                                  timestamp := now; isComplete := None |}] ∧
  isLoading c' = true ∧
  effects c' = effects c ++ [Emit "message" content (sessionId c)] ∧
  pending c' = pending c.
Proof.
  intros [s Hs]%socketRef_reachable Hb. unfold sendMessage.
  rewrite truthy_trim, Hb, Hs. simpl.
  done.
Qed.

(** C6. Blank input (empty, or white space only) makes [sendMessage] return
    the component as it is: nothing appended, nothing emitted.  Any other
    input, on a mounted component, puts the user's message at the end of the
    transcript and sets the loading flag in the call itself, before anything
    comes back from the backend, and emits the text with the active session
    id. *)
Theorem sendMessage_blank_or_sent (content now : jsstring) :
  (∀ c, blank content = true → sendMessage content now c = c) ∧
  (∀ c, reachable API c → blank content = false →
     let c' := sendMessage content now c in
     messages c' = messages c ++ [{| role := user; content := content;
                                     timestamp := now; isComplete := None |}] ∧
     isLoading c' = true ∧
     effects c' = effects c ++ [Emit "message" content (sessionId c)] ∧
     pending c' = pending c).
Proof.
  split; intros c.
  - intros Hb. unfold sendMessage. by rewrite truthy_trim, Hb.
  - apply sendMessage_sent.
Qed.

(** ** The server's session id *)

Lemma sessionId_step (a : Action) (c : Component) :
  keeps_session a = true → sessionId (step API a c) = sessionId c.
Proof.
  destruct a as [ev| | | | | | |]; [destruct ev|..]; try discriminate;
    intros _; unfold_component; simpl; repeat case_match; done.
Qed.

Lemma run_keeps (acts : list Action) (c : Component) :
  forallb keeps_session acts = true → reachable API c →
  sessionId (run API acts c) = sessionId c ∧ reachable API (run API acts c).
Proof.
  revert c. induction acts as [|a acts IH]; intros c; simpl; [done|].
  intros [Ha Hacts]%andb_prop Hc.
  destruct (IH (step API a c)) as [-> ?]; [done|by constructor|].
  by rewrite sessionId_step.
Qed.

(** X20. A 'session' event on a socket that has the listeners makes the id
    the server sent the active session id and stores it, whatever the active
    id was; and from then on, as long as no other session event, session
    switch or new session intervenes, every [sendMessage] with non-blank
    text, called from a committed render, emits it with that id. *)
Theorem session_adopted (c : Component) (sid : jsstring) :
  reachable API c → listening c = true →
  let c1 := step API (Incoming (session sid)) c in
  sessionId c1 = sid ∧
  localStorage c1 !! "chatSessionId" = Some sid ∧
  ∀ acts content now,
    forallb keeps_session acts = true → blank content = false →
    let c2 := run API acts c1 in
    effects (sendMessage content now c2)
    = effects c2 ++ [Emit "message" content sid].
Proof.
  intros Hc Hl c1.
  assert (sessionId c1 = sid) as H1.
  { unfold c1. simpl. unfold dispatch. by rewrite Hl. }
  split_all; [done| |].
  - unfold c1. simpl. unfold dispatch. rewrite Hl. simpl.
    apply lookup_insert_eq.
  - intros acts content now Hacts Hb c2.
    destruct (run_keeps acts c1) as [H2 Hr]; [done|by constructor|].
    destruct (sendMessage_sent content now c2 Hr Hb) as (_ & _ & -> & _).
    fold c2 in H2. by rewrite H2, H1.
Qed.

(** ** Transcript fetches that settle late *)

Lemma reachable_run (acts : list Action) (c : Component) :
  reachable API c → reachable API (run API acts c).
Proof.
  revert c. induction acts as [|a acts IH]; intros c Hc; simpl; [done|].
  apply IH. by constructor.
Qed.

(** C2, as the code has it.  [switchSession] cancels nothing: a transcript
    fetch that is in flight stays in flight, next to the one the switch
    starts.  And there is no guard on the id a fetch was made for: whenever a
    transcript fetch settles with a readable 2xx response, its messages
    replace the transcript, also when the active session id is another one
    by then; only a failed fetch leaves the transcript as it is. *)
Theorem history_unguarded (c : Component) (i : nat) (sid : jsstring)
    (fromSwitch : bool) (n : NetResult) (newSessionId : jsstring) :
  pending c !! i = Some (AwaitHistory sid fromSwitch) →
  (pending (switchSession API newSessionId c)
     = pending c ++ [AwaitHistory newSessionId true] ∧
   sessionId (switchSession API newSessionId c) = newSessionId) ∧
  let c' := settle API i n c in
  sessionId c' = sessionId c ∧
  messages c' = match fetchWithTimeout n ≫= json with
                | Some data => default [] (data_messages data)
                | None => messages c
                end.
Proof.
  intros Hi. split.
  - unfold switchSession, reopen. simpl. by case_match.
  - unfold settle. rewrite Hi. simpl.
    unfold fetchChatHistory_resume.
    destruct fromSwitch; by case_match.
Qed.

End Properties.

(** * Executions of the component *)

(** ** Counterexamples *)

(** C2 as stated does not hold.  The component mounts on session [A] and
    requests its transcript; the user switches to [B], whose transcript
    arrives; then the answer for [A] arrives and replaces it, although [B] is
    the active session. *)
Lemma stale_history_overwrites :
  ¬ (∀ c i sid fromSwitch n,
       reachable example_api c →
       pending c !! i = Some (AwaitHistory sid fromSwitch) →
       sid ≠ sessionId c →
       messages (settle example_api i n c) = messages c).
Proof.
  intros H.
  specialize (H (run example_api
                   [SwitchSession example_B;
                    Settle 2 (example_history [example_mB])]
                   example_mounted)
                0%nat example_A false (example_history [example_mA])).
  assert (reachable example_api example_mounted) as Hm by apply reachable_mount.
  specialize (H (reachable_run _ _ _ Hm) eq_refl).
  assert (example_A ≠ example_B) as Hne by (vm_compute; discriminate).
  specialize (H Hne). vm_compute in H. discriminate.
Qed.

(** C4 as stated does not hold.  After one user submission the transcript
    holds the user's message, which has no completion flag. *)
Lemma user_message_unflagged :
  ¬ (∀ acts,
       Forall (λ m, isComplete m = Some true)
         (messages (run example_api acts example_mounted))).
Proof.
  intros H.
  specialize (H [SendMessage (js "hello") (js "2024-01-01T00:00:05.000Z")]).
  vm_compute in H. apply Forall_cons_1 in H as [H _]. discriminate.
Qed.

(** C9 as stated does not hold.  With the empty string stored, the mount
    effect does not use it: it takes a fresh id. *)
Lemma empty_stored_id_replaced :
  ¬ (∀ ls uuid id,
       ls !! "chatSessionId" = Some id →
       sessionId (mount example_api uuid (initial ls)) = id).
Proof.
  intros H.
  specialize (H {[ "chatSessionId" := [] ]} example_uuid [] eq_refl).
  vm_compute in H. discriminate.
Qed.

(** ** A failed transcript fetch *)

(** C8 on the code.  Session [A] is on screen with its transcript; the user
    switches to [B] and the transcript request fails.  The error is set and
    nothing is thrown, but the transcript is not emptied: session [B] shows
    the messages of [A].  (A failed session-list fetch does fall back to the
    empty list.) *)
Lemma failed_history_keeps_transcript :
  let c := run example_api
             [Settle 0 (example_history [example_mA]);
              SwitchSession example_B]
             example_mounted in
  let c' := settle example_api 1 NetworkError c in
  pending c = [AwaitSessions; AwaitHistory example_B true] ∧
  sessionId c' = example_B ∧
  messages c' = [example_mA] ∧
  error c' = Some (js "Unable to load chat history. Please try again later.") ∧
  sessions (settle example_api 0 NetworkError c') = [] ∧
  error (settle example_api 0 NetworkError c')
    = Some (js "No chat sessions available.").
Proof. vm_compute. done. Qed.

(** ** Events on a socket without listeners *)

(** C1 on the code.  The user asks and, before the answer comes, switches to
    session [B].  Before the switch a 'message' event with its flag set is
    appended to the transcript.  After it, the socket in use is the one
    [switchSession] opened, on which no listener was registered: the same
    event changes nothing, the answer is not appended and the loading flag
    stays up. *)
Lemma final_message_lost_after_switch :
  reachable example_api example_switched ∧
  example_switched
  = step example_api (SwitchSession example_B) example_asked ∧
  isComplete example_mB = Some true ∧
  messages (step example_api (Incoming (message_final example_mB))
              example_asked)
  = messages example_asked ++ [example_mB] ∧
  step example_api (Incoming (message_final example_mB)) example_switched
  = example_switched ∧
  messages example_switched = messages example_asked ∧
  streamedMessage example_switched = None ∧
  isLoading example_switched = true.
Proof.
  split; [apply reachable_run, reachable_mount|]. vm_compute. done.
Qed.

(** C3 on the code.  In the same two states, two deltas in a row: before the
    switch the placeholder is the second one; after the switch the deltas
    are not heard and the placeholder stays empty. *)
Lemma deltas_lost_after_switch :
  let d1 := {| role := assistant; content := js "kept";
               timestamp := js "2024-01-02T00:00:00.000Z";
               isComplete := Some false |} in
  let d2 := {| role := assistant; content := js "kept in session";
               timestamp := js "2024-01-02T00:00:00.000Z";
               isComplete := Some false |} in
  let deltas := [Incoming (message_stream d1); Incoming (message_stream d2)] in
  reachable example_api example_switched ∧
  streamedMessage (run example_api deltas example_asked) = Some d2 ∧
  streamedMessage (run example_api deltas example_switched) = None ∧
  run example_api deltas example_switched = example_switched.
Proof.
  split; [apply reachable_run, reachable_mount|]. vm_compute. done.
Qed.

(** C7 on the code.  After the switch to [B] the server assigns session [C]
    on the socket in use: the id is neither adopted nor stored, and the next
    message goes out with [B].  On the socket of the mount effect the id is
    adopted and stored; there, a [sendMessage] that the view still holds
    from the render before the event sends the old id [A]. *)
Lemma session_event_lost_after_switch :
  reachable example_api example_switched ∧
  (let c' := step example_api (Incoming (session example_C))
               example_switched in
   sessionId c' = example_B ∧
   localStorage c' !! "chatSessionId" = Some example_B ∧
   effects (sendMessage (js "again") (js "t") c')
   = effects c' ++ [Emit "message" (js "again") example_B]) ∧
  (let c' := step example_api (Incoming (session example_C))
               example_mounted in
   sessionId c' = example_C ∧
   localStorage c' !! "chatSessionId" = Some example_C ∧
   effects (sendMessage (js "again") (js "t") c')
   = effects c' ++ [Emit "message" (js "again") example_C] ∧
   effects (sendMessage_from example_A (js "again") (js "t") c')
   = effects c' ++ [Emit "message" (js "again") example_A]).
Proof.
  split; [apply reachable_run, reachable_mount|]. vm_compute. done.
Qed.

(** C10 on the code.  The backend is typing and the user has asked.  An
    'error' event now would set the error, put the status back to idle and
    lower the loading flag.  After a switch to [B] the same event, on the
    socket in use, changes nothing: no error message, the status still says
    typing and the loading flag stays up. *)
Lemma error_event_lost_after_switch :
  let c := step example_api (SwitchSession example_B) example_typing in
  reachable example_api c ∧
  (let c' := step example_api (Incoming error_event) example_typing in
   error c' = Some (js "An error occurred with the chat connection. Please try again later.") ∧
   type (status c') = idle ∧ isLoading c' = false) ∧
  (let c' := step example_api (Incoming error_event) c in
   c' = c ∧ error c' = None ∧
   type (status c') = typing ∧ isLoading c' = true).
Proof.
  split; [apply reachable_step, reachable_run, reachable_mount|].
  vm_compute. done.
Qed.

(** ** The theorems at work *)

(** The invariant after the sample conversation on a fresh browser. *)
Lemma transcript_invariant_witness :
  forallb history_vetted example_conversation = true ∧
  let c := run example_api example_conversation
             (mount example_api example_uuid (initial ∅)) in
  forallb vetted (messages c) = true ∧
  (length (option_list (streamedMessage c)) ≤ 1)%nat ∧
  ∀ a, resets a c = false →
       messages c `prefix_of` messages (step example_api a c).
Proof.
  split; [reflexivity|].
  apply (transcript_invariant example_api ∅ example_uuid example_conversation).
  reflexivity.
Defined.


(** Two spaces are ignored; ["hi"] is sent. *)
Lemma sendMessage_blank_or_sent_witness :
  (blank (js "  ") = true ∧
   sendMessage (js "  ") (js "t") example_mounted = example_mounted) ∧
  (reachable example_api example_mounted ∧ blank (js "hi") = false ∧
   isLoading (sendMessage (js "hi") (js "t") example_mounted) = true).
Proof.
  split.
  - split; [reflexivity|].
    destruct (sendMessage_blank_or_sent example_api (js "  ") (js "t"))
      as [H _].
    apply H. reflexivity.
  - split; [apply reachable_mount|]. split; [reflexivity|].
    destruct (sendMessage_blank_or_sent example_api (js "hi") (js "t"))
      as [_ H].
    apply (H example_mounted); [apply reachable_mount|reflexivity].
Defined.

(** The server answers the mounted component (stored id [A]) with id [B];
    after the conversation above, the next message still goes out with
    [B]. *)
Lemma session_adopted_witness :
  reachable example_api example_mounted ∧
  listening example_mounted = true ∧
  let c1 := step example_api (Incoming (session example_B)) example_mounted in
  let c2 := run example_api example_conversation c1 in
  sessionId c1 = example_B ∧
  effects (sendMessage (js "again") (js "t") c2)
  = effects c2 ++ [Emit "message" (js "again") example_B].
Proof.
  split; [apply reachable_mount|]. split; [reflexivity|].
  destruct (session_adopted example_api example_mounted example_B)
    as (H1 & _ & H2); [apply reachable_mount|reflexivity|].
  split; [exact H1|].
  apply (H2 example_conversation (js "again") (js "t")); reflexivity.
Defined.

(** The transcript request for [A] is still in flight after the switch to
    [B]; when it settles, [B] is active and the transcript is the one of
    [A]. *)
Lemma history_unguarded_witness :
  let c := switchSession example_api example_B example_mounted in
  pending c !! 0%nat = Some (AwaitHistory example_A false) ∧
  let c' := settle example_api 0 (example_history [example_mA]) c in
  sessionId c' = example_B ∧ messages c' = [example_mA].
Proof.
  intros c. split; [reflexivity|].
  destruct (history_unguarded example_api c 0 example_A false
              (example_history [example_mA]) example_A eq_refl)
    as [_ [H1 H2]].
  split; [exact H1|exact H2].
Defined.

(** * Further properties of the component *)

Section Lifecycle.

Variable API : jsstring.

(** ** The identity store *)

Lemma storage_step (a : Action) (c : Component) :
  localStorage c !! "chatSessionId" = Some (sessionId c) →
  localStorage (step API a c) !! "chatSessionId"
  = Some (sessionId (step API a c)).
Proof.
  intros Hc. destruct a as [ev| | | | | | |]; [destruct ev|..];
    unfold_component; simpl; repeat case_match; simpl;
    rewrite ?lookup_insert_eq; done.
Qed.

(** X1. In every state of a mounted component, the id stored under
    [chatSessionId] is the active session id: every path that sets one sets
    the other. *)
Theorem storage_tracks_session (c : Component) :
  reachable API c → localStorage c !! "chatSessionId" = Some (sessionId c).
Proof.
  induction 1 as [ls uuid|a c _ IH]; [|by apply storage_step].
  unfold mount, getItem. simpl.
  destruct (ls !! "chatSessionId") as [[|u s]|] eqn:E; simpl;
    rewrite ?lookup_insert_eq; done.
Qed.

Lemma other_keys_step (key : string) (a : Action) (c : Component) :
  key ≠ "chatSessionId" →
  localStorage (step API a c) !! key = localStorage c !! key.
Proof.
  intros Hk. destruct a as [ev| | | | | | |]; [destruct ev|..];
    unfold_component; simpl; repeat case_match; simpl;
    rewrite ?lookup_insert_ne, ?lookup_delete_ne by done; done.
Qed.

(** X2. The component reads and writes one key of the local storage only:
    whatever it does, every other key keeps the value it had when the page
    was loaded. *)
Theorem other_keys_untouched (ls : gmap string jsstring) (uuid : jsstring)
    (acts : list Action) (key : string) :
  key ≠ "chatSessionId" →
  localStorage (run API acts (mount API uuid (initial ls))) !! key
  = ls !! key.
Proof.
  intros Hk.
  assert (localStorage (mount API uuid (initial ls)) !! key = ls !! key) as H0.
  { unfold mount, getItem. simpl. repeat case_match; simpl;
      rewrite ?lookup_insert_ne by done; done. }
  revert H0. generalize (mount API uuid (initial ls)).
  induction acts as [|a acts IH]; intros c Hc; simpl; [done|].
  apply IH. by rewrite other_keys_step.
Qed.

(** ** The socket *)

(** X3. A socket that was opened by a session switch or a new session is
    scoped to the active session id, in every later state.  (The socket of
    the mount effect keeps the id it was opened with, also after the server
    assigns another one.) *)
Theorem reopened_socket_scoped (c : Component) :
  reachable API c →
  ∃ s, socketRef c = Some s ∧
       (listeners s = false → query_sessionId s = sessionId c).
Proof.
  induction 1 as [ls uuid|a c _ (s & Hs & IH)].
  - unfold mount. simpl. eexists; split; [reflexivity|]. discriminate.
  - destruct a as [ev| | | | | | |]; [destruct ev|..];
      unfold_component; rewrite ?Hs; simpl;
      repeat case_match; simpl; rewrite ?Hs;
      try (eexists; split; [reflexivity|]; simpl; by auto);
      try (exists s; split; [done|]; simpl; intros; congruence).
Qed.

Lemma listening_step (a : Action) (c : Component) :
  listening c = false → listening (step API a c) = false.
Proof.
  unfold listening. intros Hc.
  destruct a as [ev| | | | | | |]; [destruct ev|..];
    unfold_component; simpl; repeat case_match; simpl in *;
    simplify_eq; done.
Qed.

Lemma listening_run (acts : list Action) (c : Component) :
  listening c = false → listening (run API acts c) = false.
Proof.
  revert c. induction acts as [|a acts IH]; intros c Hc; simpl; [done|].
  by apply IH, listening_step.
Qed.

(** X4. The listeners are registered once, on the socket of the mount
    effect.  After a session switch or a new session the socket in use has
    none: from then on no socket event changes the component, whatever
    happens in between. *)
Theorem listeners_lost (c : Component) (a : Action) (acts : list Action)
    (ev : SocketEvent) :
  reachable API c → reopens a = true →
  let c' := run API acts (step API a c) in
  step API (Incoming ev) c' = c'.
Proof.
  intros [s Hs]%socketRef_reachable Ha c'.
  assert (listening c' = false) as Hl.
  { apply listening_run. destruct a; try discriminate; simpl;
      unfold createNewSession, switchSession, reopen, listening; simpl;
      rewrite Hs; done. }
  simpl. unfold dispatch. by rewrite Hl.
Qed.

(** ** The loading flag and the status *)

Lemma isLoading_lowered (a : Action) (c : Component) :
  isLoading c = true → isLoading (step API a c) = false →
  listening c = true ∧
  (a = Incoming error_event ∨
   ∃ m, a = Incoming (message_final m) ∧ isComplete m = Some true).
Proof.
  intros Hc. destruct a as [ev|content now| | | | | |i n]; simpl.
  - unfold dispatch. destruct (listening c); [|congruence].
    destruct ev; simpl; try congruence.
    + unfold on_message, completed.
      destruct (isComplete m) as [[|]|] eqn:E; simpl; try congruence.
      intros _. split; [done|]. right. by exists m.
    + intros _. split; [done|]. by left.
  - unfold sendMessage. case_match; simpl; congruence.
  - simpl. congruence.
  - unfold createNewSession, reopen. simpl. case_match; simpl; congruence.
  - unfold switchSession, reopen. simpl. case_match; simpl; congruence.
  - unfold retryConnection. case_match; simpl; congruence.
  - simpl. congruence.
  - unfold_component. repeat case_match; simpl; congruence.
Qed.

(** X5. The loading flag is lowered by two listeners only: a step that
    lowers it is an 'error' event or a 'message' event with its completion
    flag set, on a socket that has the listeners.  So once the socket in use
    has no listeners, a raised loading flag stays raised in every later
    state. *)
Theorem isLoading_stuck :
  (∀ a c, isLoading c = true → isLoading (step API a c) = false →
          listening c = true ∧
          (a = Incoming error_event ∨
           ∃ m, a = Incoming (message_final m) ∧ isComplete m = Some true)) ∧
  (∀ c acts, listening c = false → isLoading c = true →
             isLoading (run API acts c) = true).
Proof.
  split; [exact isLoading_lowered|].
  intros c acts. revert c.
  induction acts as [|a acts IH]; intros c Hl Hc; simpl; [done|].
  apply IH; [by apply listening_step|].
  destruct (isLoading (step API a c)) eqn:E; [done|].
  destruct (isLoading_lowered a c Hc E) as [Hl' _]. congruence.
Qed.

(** X6. The activity status is written by the 'status' and 'error'
    listeners and by nothing else: no message, submission, session change,
    clear or settled request touches it. *)
Theorem status_frame (a : Action) (c : Component) :
  touches_status a = false → status (step API a c) = status c.
Proof.
  destruct a as [ev| | | | | | |]; [destruct ev|..]; try discriminate;
    intros _; unfold_component; simpl; repeat case_match; done.
Qed.

(** ** Requests in flight *)

Lemma existsb_fetching_delete (l : list Pending) (i : nat) :
  l !! i = Some AwaitClear →
  existsb fetching (delete i l) = existsb fetching l.
Proof.
  revert i. induction l as [|k l IH]; intros [|i]; simpl; try done.
  - by intros [= ->].
  - intros Hi. by rewrite IH.
Qed.

Lemma spinner_step (a : Action) (c : Component) :
  (isHistoryLoading c = true → existsb fetching (pending c) = true) →
  isHistoryLoading (step API a c) = true →
  existsb fetching (pending (step API a c)) = true.
Proof.
  intros Hc.
  destruct a as [ev| | | | | | |i n]; [destruct ev|..];
    unfold_component; simpl; repeat case_match; simpl;
    rewrite ?existsb_app; simpl; rewrite ?orb_true_r;
    try done; try (intros ?; rewrite Hc; done).
  all: intros ?; rewrite existsb_fetching_delete by done; auto.
Qed.

(** X7. The history spinner ([isHistoryLoading]) is up only while a
    transcript or session-list request is in flight: it cannot stay up with
    nothing left to lower it. *)
Theorem spinner_has_request (c : Component) :
  reachable API c →
  isHistoryLoading c = true → existsb fetching (pending c) = true.
Proof.
  induction 1 as [ls uuid|a c _ IH]; [|by apply spinner_step].
  unfold mount. simpl. by case_match.
Qed.

Lemma pending_step (a : Action) (c : Component) :
  is_settle a = false → pending c `prefix_of` pending (step API a c).
Proof.
  destruct a as [ev| | | | | | |i n]; [destruct ev|..]; try discriminate;
    intros _; unfold_component; simpl; repeat case_match; simpl;
    rewrite <- ?app_assoc; try done; by apply prefix_app_r.
Qed.

(** X8. Nothing cancels a request: whatever happens other than a request
    settling (any socket event, any call from the view), the requests in
    flight stay in flight, in their order, with the new ones behind them. *)
Theorem requests_never_cancelled (acts : list Action) (c : Component) :
  forallb (λ a, negb (is_settle a)) acts = true →
  pending c `prefix_of` pending (run API acts c).
Proof.
  revert c. induction acts as [|a acts IH]; intros c; simpl; [done|].
  intros [Ha Hacts]%andb_prop. etrans; [|by apply IH].
  apply pending_step. by destruct (is_settle a).
Qed.

(** ** The effect log *)

Lemma count_app (p : Effect → bool) (l k : list Effect) :
  count p (l ++ k) = (count p l + count p k)%nat.
Proof. induction l as [|e l IH]; simpl; [done|]. rewrite IH. lia. Qed.

Lemma forallb_emit_ok_app (l k : list Effect) :
  forallb emit_ok l = true → forallb emit_ok k = true →
  forallb emit_ok (l ++ k) = true.
Proof. intros Hl Hk. by rewrite forallb_app, Hl, Hk. Qed.

Lemma one_socket_app (open : bool) (l k : list Effect) :
  one_socket open (l ++ k) = one_socket open l ≫= λ b, one_socket b k.
Proof.
  revert open. induction l as [|e l IH]; intros open; [done|].
  destruct e, open; simpl; auto.
Qed.

(** What one step adds to the log: as many [Disconnect] as [Io], only
    well-formed emissions, and no [io()] but after a [disconnect()]. *)
Lemma effects_step (a : Action) (c : Component) :
  ∃ new, effects (step API a c) = effects c ++ new ∧
         count is_io new = count is_disconnect new ∧
         forallb emit_ok new = true ∧
         one_socket true new = Some true.
Proof.
  destruct a as [ev|content now| | | | | |i n]; [destruct ev|..];
    try (unfold_component; simpl; repeat case_match; simpl;
         rewrite <- ?app_assoc;
         first [ by (exists []; rewrite app_nil_r)
               | by (eexists; split; [reflexivity|]) ]).
  simpl. unfold sendMessage. rewrite truthy_trim.
  destruct (blank content) eqn:Hb; simpl;
    [by (exists []; rewrite app_nil_r)|].
  case_match; simpl; [by (exists []; rewrite app_nil_r)|].
  eexists; split; [reflexivity|]. simpl. by rewrite Hb.
Qed.

Lemma one_socket_step (a : Action) (c : Component) :
  one_socket false (effects c) = Some true →
  one_socket false (effects (step API a c)) = Some true.
Proof.
  intros Hc. destruct (effects_step a c) as (new & -> & _ & _ & Hn).
  by rewrite one_socket_app, Hc.
Qed.

Lemma balance_step (a : Action) (c : Component) :
  count is_io (effects (step API a c))
  = (count is_io (effects c)
     + (count is_disconnect (effects (step API a c))
        - count is_disconnect (effects c)))%nat ∧
  (count is_disconnect (effects c)
   ≤ count is_disconnect (effects (step API a c)))%nat.
Proof.
  destruct (effects_step a c) as (new & -> & Hn & _).
  rewrite !count_app. lia.
Qed.

(** X9. One socket at a time.  In every state of a mounted component the
    sockets opened so far are one more than the sockets disconnected, and
    unmounting disconnects that last one: every socket the component ever
    opened is disconnected in the end.  And in the order of the log no
    [io()] comes while a socket is open: each socket is disconnected before
    the next is opened, one is open while the component is mounted and none
    after it has unmounted. *)
Theorem sockets_balance (c : Component) :
  reachable API c →
  count is_io (effects c) = S (count is_disconnect (effects c)) ∧
  count is_io (effects (unmount c))
  = count is_disconnect (effects (unmount c)) ∧
  one_socket false (effects c) = Some true ∧
  one_socket false (effects (unmount c)) = Some false.
Proof.
  intros Hc.
  assert (count is_io (effects c) = S (count is_disconnect (effects c)) ∧
          one_socket false (effects c) = Some true) as [Hb Ho].
  { induction Hc as [ls uuid|a c _ [IH1 IH2]].
    - unfold mount. simpl. by case_match.
    - split; [destruct (balance_step a c); lia|by apply one_socket_step]. }
  apply socketRef_reachable in Hc as [s Hs].
  unfold unmount. rewrite Hs. simpl.
  rewrite !count_app, one_socket_app, Hb, Ho. simpl. split_all; try done; lia.
Qed.

(** X10. The component never emits anything but 'message', and never with
    blank text: this holds of every emission in the log of every state it
    reaches. *)
Theorem emits_wellformed (c : Component) :
  reachable API c → forallb emit_ok (effects c) = true.
Proof.
  induction 1 as [ls uuid|a c _ IH].
  - unfold mount. simpl. by case_match.
  - destruct (effects_step a c) as (new & -> & _ & Hn & _).
    by apply forallb_emit_ok_app.
Qed.

(** ** Settled requests *)

(** X11. A response reaches the caller of [fetchWithTimeout] exactly when
    its status is 200 to 299; a network failure, the timeout and every other
    status reach it as an exception. *)
Theorem fetchWithTimeout_2xx (n : NetResult) (r : Response) :
  fetchWithTimeout n = Some r ↔
  n = Responded r ∧ 200 ≤ resp_status r ∧ resp_status r ≤ 299.
Proof.
  unfold fetchWithTimeout, ok. split.
  - destruct n as [| |r']; try discriminate.
    destruct (200 <=? resp_status r') eqn:E1; simpl; [|discriminate].
    destruct (resp_status r' <=? 299) eqn:E2; [|discriminate].
    intros [= ->]. apply N.leb_le in E1, E2. done.
  - intros (-> & H1 & H2). apply N.leb_le in H1, H2. by rewrite H1, H2.
Qed.

(** X12. When a session-list request settles: a readable 2xx response gives
    the list it carries (the empty list if it carries none) and leaves the
    error as it was; anything else gives the empty list and the error
    message.  Either way the spinner is lowered and the transcript and the
    placeholder are not touched. *)
Theorem sessions_settle (c : Component) (i : nat) (n : NetResult) :
  pending c !! i = Some AwaitSessions →
  let c' := settle API i n c in
  sessions c' = match fetchWithTimeout n ≫= json with
                | Some data => default [] (data_sessions data)
                | None => []
                end ∧
  error c' = match fetchWithTimeout n ≫= json with
             | Some _ => error c
             | None => Some (js "No chat sessions available.")
             end ∧
  isHistoryLoading c' = false ∧
  messages c' = messages c ∧
  streamedMessage c' = streamedMessage c ∧
  pending c' = delete i (pending c).
Proof.
  intros Hi. unfold settle. rewrite Hi. simpl.
  unfold fetchSessions_resume. by case_match.
Qed.

(** X13. The spinner is lowered by the first transcript or session-list
    request that settles, whether or not others are still in flight. *)
Theorem spinner_lowered_early (c : Component) (i : nat) (k : Pending)
    (n : NetResult) :
  pending c !! i = Some k → fetching k = true →
  isHistoryLoading (settle API i n c) = false ∧
  pending (settle API i n c) = delete i (pending c).
Proof.
  intros Hi Hk. unfold settle. rewrite Hi.
  destruct k as [sid b| |]; try discriminate; simpl.
  - unfold fetchChatHistory_resume. destruct b; by case_match.
  - unfold fetchSessions_resume. by case_match.
Qed.

(** ** A new session, and back *)

Lemma settle_history (c : Component) (i : nat) (sid : jsstring)
    (fromSwitch : bool) (n : NetResult) :
  pending c !! i = Some (AwaitHistory sid fromSwitch) →
  messages (settle API i n c)
  = match fetchWithTimeout n ≫= json with
    | Some data => default [] (data_messages data)
    | None => messages c
    end ∧
  sessionId (settle API i n c) = sessionId c ∧
  (fromSwitch = true → isSidebarOpen (settle API i n c) = false).
Proof.
  intros Hi. unfold settle. rewrite Hi. simpl.
  unfold fetchChatHistory_resume.
  destruct fromSwitch; case_match; simpl; split_all; done.
Qed.

Lemma new_then_switch (c : Component) (uuid oldId : jsstring) (s : Socket) :
  socketRef c = Some s →
  let c2 := switchSession API oldId (createNewSession API uuid c) in
  messages c2 = [] ∧ sessionId c2 = oldId ∧
  socketRef c2 = Some {| query_sessionId := oldId; listeners := false |} ∧
  pending c2 = pending c ++ [AwaitSessions; AwaitHistory oldId true] ∧
  effects c2 = effects c ++
    [RemoveItem "chatSessionId"; SetItem "chatSessionId" uuid;
     Disconnect; Io uuid; Fetch GET (sessionUrl API);
     SetItem "chatSessionId" oldId;
     Disconnect; Io oldId; Fetch GET (chatUrl API oldId)].
Proof.
  intros Hs. unfold switchSession, createNewSession, reopen. simpl.
  rewrite Hs. simpl. rewrite <- !app_assoc. done.
Qed.

(** X14. [createNewSession] and then [switchSession] back to the old id, on
    a mounted component.  The new session starts with an empty transcript and
    nothing of the old one is kept: after the switch the transcript is still
    empty, with a request for the old id in flight behind the ones there
    were.  When that request settles the transcript is what the response
    carries, or stays empty if the request failed, and the sidebar is
    closed.  Each switch disconnects the socket before opening the next. *)
Theorem new_session_and_back (c : Component) (uuid oldId : jsstring)
    (n : NetResult) :
  reachable API c →
  let c1 := createNewSession API uuid c in
  let c2 := switchSession API oldId c1 in
  let c3 := settle API (S (length (pending c))) n c2 in
  (messages c1 = [] ∧ streamedMessage c1 = None ∧ sessionId c1 = uuid) ∧
  (messages c2 = [] ∧ sessionId c2 = oldId ∧
   socketRef c2 = Some {| query_sessionId := oldId; listeners := false |} ∧
   pending c2 = pending c ++ [AwaitSessions; AwaitHistory oldId true] ∧
   effects c2 = effects c ++
     [RemoveItem "chatSessionId"; SetItem "chatSessionId" uuid;
      Disconnect; Io uuid; Fetch GET (sessionUrl API);
      SetItem "chatSessionId" oldId;
      Disconnect; Io oldId; Fetch GET (chatUrl API oldId)]) ∧
  (messages c3 = match fetchWithTimeout n ≫= json with
                 | Some data => default [] (data_messages data)
                 | None => []
                 end ∧
   sessionId c3 = oldId ∧ isSidebarOpen c3 = false).
Proof.
  intros [s Hs]%socketRef_reachable. cbv zeta.
  destruct (new_then_switch c uuid oldId s Hs) as (Hm & Hid & Hsock & Hp & He).
  assert (messages (createNewSession API uuid c) = [] ∧
          streamedMessage (createNewSession API uuid c) = None ∧
          sessionId (createNewSession API uuid c) = uuid) as H1.
  { unfold createNewSession, reopen. simpl. by rewrite Hs. }
  split; [exact H1|]. clear H1.
  revert Hm Hid Hsock Hp He.
  generalize (switchSession API oldId (createNewSession API uuid c)).
  intros c2 Hm Hid Hsock Hp He.
  split; [by split_all|].
  destruct (settle_history c2 (S (length (pending c))) oldId true n)
    as (H3 & H4 & H5).
  { rewrite Hp, lookup_app_r by lia.
    by replace (S (length (pending c)) - length (pending c))%nat
      with 1%nat by lia. }
  rewrite H3, H4, Hm, Hid. split_all; [done|done|by apply H5].
Qed.

End Lifecycle.

Section Transport.

Variable API : jsstring.

(** ** Retrying, and the transport's events *)

(** X15. [retryConnection] on a mounted component reconnects the socket in
    use (it opens no new one), clears the error and requests the transcript
    of the active session again; the transcript on screen stays until that
    request settles. *)
Theorem retry_refetches (c : Component) :
  reachable API c →
  let c' := retryConnection API c in
  effects c' = effects c ++ [Connect; Fetch GET (chatUrl API (sessionId c))] ∧
  pending c' = pending c ++ [AwaitHistory (sessionId c) false] ∧
  socketRef c' = socketRef c ∧
  error c' = None ∧ isHistoryLoading c' = true ∧
  messages c' = messages c ∧ sessionId c' = sessionId c.
Proof.
  intros [s Hs]%socketRef_reachable. unfold retryConnection. rewrite Hs.
  simpl. rewrite <- app_assoc. done.
Qed.

Lemma transport_sets_error (ev : SocketEvent) (c : Component) :
  transport ev = true → ∃ e, handler API ev c = setError e c.
Proof.
  destruct ev; try discriminate; intros _; simpl; eexists; reflexivity.
Qed.

Lemma transport_run (evs : list SocketEvent) (c : Component) :
  listening c = true → forallb transport evs = true →
  ∃ e, setError e (run API (Incoming <$> evs) c) = setError e c ∧
       listening (run API (Incoming <$> evs) c) = true.
Proof.
  revert c. induction evs as [|ev evs IH]; intros c Hl.
  - intros _. exists None. done.
  - simpl forallb. intros [Hev Hevs]%andb_prop.
    assert (run API (Incoming <$> ev :: evs) c
            = run API (Incoming <$> evs) (handler API ev c)) as ->.
    { simpl. unfold dispatch. by rewrite Hl. }
    destruct (transport_sets_error ev c Hev) as [e ->].
    destruct (IH (setError e c)) as (e' & He' & Hl'); [done|done|].
    exists e'. split; [|done]. by rewrite He'.
Qed.

(** X16. Connection trouble leaves no trace.  While the socket has its
    listeners, any run of transport events (connection errors, timeouts,
    reconnection attempts and failures) followed by a 'connect' leaves the
    component as it was before the run, with the error cleared: these events
    write the error message and nothing else, and the latest one wins. *)
Theorem reconnect_leaves_no_trace (evs : list SocketEvent) (c : Component) :
  listening c = true → forallb transport evs = true →
  run API (Incoming <$> (evs ++ [connect])) c = setError None c.
Proof.
  intros Hl Hevs. rewrite fmap_app. unfold run. rewrite foldl_app. simpl.
  destruct (transport_run evs c Hl Hevs) as (e & He & Hl').
  unfold run in He, Hl'. unfold dispatch. rewrite Hl'. simpl.
  unfold on_connect.
  change (setError None (foldl (λ c a, step API a c) c (Incoming <$> evs)))
    with (setError None
            (setError e (foldl (λ c a, step API a c) c (Incoming <$> evs)))).
  by rewrite He.
Qed.

End Transport.

(** ** The further properties at work *)

Lemma example_switched_reachable : reachable example_api example_switched.
Proof. apply reachable_run, reachable_mount. Qed.

(** After the switch to [B], the stored id is [B]. *)
Lemma storage_tracks_session_witness :
  reachable example_api example_switched ∧
  localStorage example_switched !! "chatSessionId" = Some example_B.
Proof.
  split; [apply example_switched_reachable|].
  apply (storage_tracks_session example_api example_switched).
  apply example_switched_reachable.
Defined.

(** A key of another application survives mount, send and switch. *)
Lemma other_keys_untouched_witness :
  "theme" ≠ "chatSessionId" ∧
  localStorage
    (run example_api
       [SendMessage (js "hello") (js "t"); SwitchSession example_B]
       (mount example_api example_uuid (initial {[ "theme" := js "dark" ]})))
    !! "theme" = Some (js "dark").
Proof.
  split; [discriminate|].
  rewrite (other_keys_untouched example_api {[ "theme" := js "dark" ]}
             example_uuid _ "theme") by discriminate.
  reflexivity.
Defined.

Lemma reopened_socket_scoped_witness :
  reachable example_api example_switched ∧
  ∃ s, socketRef example_switched = Some s ∧
       (listeners s = false → query_sessionId s = sessionId example_switched).
Proof.
  split; [apply example_switched_reachable|].
  apply (reopened_socket_scoped example_api example_switched).
  apply example_switched_reachable.
Defined.

(** After the switch, the answer to the message sent before it is lost. *)
Lemma listeners_lost_witness :
  reachable example_api example_mounted ∧
  reopens (SwitchSession example_B) = true ∧
  let c' := run example_api [SendMessage (js "hello") (js "t")]
              (step example_api (SwitchSession example_B) example_mounted) in
  step example_api (Incoming (message_final example_mB)) c' = c'.
Proof.
  split; [apply reachable_mount|]. split; [reflexivity|].
  apply (listeners_lost example_api example_mounted (SwitchSession example_B)
           [SendMessage (js "hello") (js "t")] (message_final example_mB));
    [apply reachable_mount|reflexivity].
Defined.

(** ... and the loading flag it raised stays up; before the switch an
    'error' event would have lowered it, on a socket that had the
    listeners. *)
Lemma isLoading_stuck_witness :
  (isLoading example_asked = true ∧
   isLoading (step example_api (Incoming error_event) example_asked) = false ∧
   listening example_asked = true) ∧
  (listening example_switched = false ∧ isLoading example_switched = true ∧
   isLoading (run example_api
                [Incoming (message_final example_mB); Incoming error_event;
                 Settle 2 (example_history [example_mB]); ClearChat]
                example_switched) = true).
Proof.
  destruct (isLoading_stuck example_api) as [H1 H2]. split.
  - split; [reflexivity|]. split; [reflexivity|].
    destruct (H1 (Incoming error_event) example_asked eq_refl eq_refl)
      as [Hl _].
    exact Hl.
  - split; [reflexivity|]. split; [reflexivity|].
    apply (H2 example_switched); reflexivity.
Defined.

Lemma status_frame_witness :
  touches_status (Incoming (message_final example_mA)) = false ∧
  status (step example_api (Incoming (message_final example_mA))
            example_mounted) = status example_mounted.
Proof.
  split; [reflexivity|].
  apply (status_frame example_api (Incoming (message_final example_mA))
           example_mounted).
  reflexivity.
Defined.

Lemma spinner_has_request_witness :
  reachable example_api example_switched ∧
  isHistoryLoading example_switched = true ∧
  existsb fetching (pending example_switched) = true.
Proof.
  split; [apply example_switched_reachable|]. split; [reflexivity|].
  apply (spinner_has_request example_api example_switched);
    [apply example_switched_reachable|reflexivity].
Defined.

Lemma requests_never_cancelled_witness :
  forallb (λ a, negb (is_settle a))
    [SwitchSession example_B; CreateNewSession example_uuid; ClearChat;
     RetryConnection] = true ∧
  pending example_mounted `prefix_of`
    pending (run example_api
               [SwitchSession example_B; CreateNewSession example_uuid;
                ClearChat; RetryConnection]
               example_mounted).
Proof.
  split; [reflexivity|].
  apply (requests_never_cancelled example_api
           [SwitchSession example_B; CreateNewSession example_uuid;
            ClearChat; RetryConnection] example_mounted).
  reflexivity.
Defined.

Lemma sockets_balance_witness :
  reachable example_api example_switched ∧
  count is_io (effects example_switched) = 2%nat ∧
  count is_io (effects (unmount example_switched))
  = count is_disconnect (effects (unmount example_switched)) ∧
  one_socket false (effects example_switched) = Some true ∧
  one_socket false (effects (unmount example_switched)) = Some false.
Proof.
  split; [apply example_switched_reachable|].
  destruct (sockets_balance example_api example_switched
              example_switched_reachable) as (H1 & H2 & H3 & H4).
  split; [rewrite H1; reflexivity|]. split; [exact H2|]. split; assumption.
Defined.

Lemma emits_wellformed_witness :
  reachable example_api example_switched ∧
  forallb emit_ok (effects example_switched) = true.
Proof.
  split; [apply example_switched_reachable|].
  apply (emits_wellformed example_api example_switched).
  apply example_switched_reachable.
Defined.

(** A 204 gets through; a 404 does not. *)
Lemma fetchWithTimeout_2xx_witness :
  fetchWithTimeout (example_status 204)
  = Some {| resp_status := 204; json := None |} ∧
  ¬ (200 ≤ 404 ∧ 404 ≤ 299) ∧
  fetchWithTimeout (example_status 404) = None.
Proof.
  split.
  - apply (fetchWithTimeout_2xx (example_status 204)).
    split; [reflexivity|]. split; by vm_compute.
  - split; [intros [_ H]; by vm_compute in H|].
    destruct (fetchWithTimeout (example_status 404)) as [r|] eqn:E;
      [|reflexivity].
    apply (fetchWithTimeout_2xx (example_status 404) r) in E
      as ([= <-] & _ & H). by vm_compute in H.
Defined.

(** The first session-list request, answered and failed. *)
Lemma sessions_settle_witness :
  pending example_mounted !! 1%nat = Some AwaitSessions ∧
  length (sessions (settle example_api 1 example_sessions example_mounted))
  = 1%nat ∧
  error (settle example_api 1 Aborted example_mounted)
  = Some (js "No chat sessions available.").
Proof.
  split; [reflexivity|].
  destruct (sessions_settle example_api example_mounted 1 example_sessions
              eq_refl) as (H1 & _).
  destruct (sessions_settle example_api example_mounted 1 Aborted eq_refl)
    as (_ & H2 & _).
  split; [rewrite H1; reflexivity|exact H2].
Defined.

(** The session list arrives first: the spinner goes down with the
    transcript request still in flight. *)
Lemma spinner_lowered_early_witness :
  pending example_mounted !! 1%nat = Some AwaitSessions ∧
  fetching AwaitSessions = true ∧
  isHistoryLoading (settle example_api 1 example_sessions example_mounted)
  = false ∧
  pending (settle example_api 1 example_sessions example_mounted)
  = [AwaitHistory example_A false].
Proof.
  split; [reflexivity|]. split; [reflexivity|].
  destruct (spinner_lowered_early example_api example_mounted 1 AwaitSessions
              example_sessions eq_refl eq_refl) as [H1 H2].
  split; [exact H1|rewrite H2; reflexivity].
Defined.

(** From [A] to a new session and back to [A]. *)
Lemma new_session_and_back_witness :
  reachable example_api example_mounted ∧
  let c2 := switchSession example_api example_A
              (createNewSession example_api example_uuid example_mounted) in
  messages c2 = [] ∧
  messages (settle example_api 3 (example_history [example_mA]) c2)
  = [example_mA].
Proof.
  split; [apply reachable_mount|].
  destruct (new_session_and_back example_api example_mounted example_uuid
              example_A (example_history [example_mA]))
    as (_ & (H2 & _) & (H3 & _)); [apply reachable_mount|].
  split; [exact H2|exact H3].
Defined.

(** Retrying after the switch to [B] asks for the transcript of [B]. *)
Lemma retry_refetches_witness :
  reachable example_api example_switched ∧
  pending (retryConnection example_api example_switched)
  = pending example_switched ++ [AwaitHistory example_B false].
Proof.
  split; [apply example_switched_reachable|].
  destruct (retry_refetches example_api example_switched
              example_switched_reachable) as (_ & H & _).
  rewrite H. reflexivity.
Defined.

(** A connection error, three attempts, and the connection is back. *)
Lemma reconnect_leaves_no_trace_witness :
  listening example_mounted = true ∧
  forallb transport
    [connect_error; reconnect_attempt 1; reconnect_attempt 2;
     reconnect_attempt 3] = true ∧
  error (run example_api
           (Incoming <$> [connect_error; reconnect_attempt 1;
                          reconnect_attempt 2; reconnect_attempt 3])
           example_mounted)
  = Some (js "Attempting to reconnect to server... (Attempt 3)") ∧
  run example_api
    (Incoming <$> ([connect_error; reconnect_attempt 1; reconnect_attempt 2;
                    reconnect_attempt 3] ++ [connect]))
    example_mounted
  = setError None example_mounted.
Proof.
  split; [reflexivity|]. split; [reflexivity|]. split; [reflexivity|].
  apply (reconnect_leaves_no_trace example_api
           [connect_error; reconnect_attempt 1; reconnect_attempt 2;
            reconnect_attempt 3] example_mounted); reflexivity.
Defined.
